(** * zaproll configuration normalisation ([Config.adjust])

    A shallow embedding of the configuration half of zaproll, the rotating
    log writer behind nanozap: the [Config] struct, its defaults, the unit
    conversion and page alignment done by [adjust], and [alignToPage].

    Go's [int64] is modelled as [Z] with two's-complement wrap-around made
    explicit in every arithmetic operation ([Int64.add], [Int64.sub],
    [Int64.mul]); the bit-clear operator [&^] is [Z.ldiff].

    Of nanozap's field constructors (field.go) the unsigned 64-bit ones,
    [Uint64] and [Uint], are embedded in [Zap]: they are the ones whose
    conversion to [int64] can change the number stored. *)

From Stdlib Require Import ZArith Lia String Bool.

Local Open Scope Z_scope.

(** ** Go's [int64] arithmetic *)

Module Int64.

Definition half_modulus : Z := 9223372036854775808.      (* 2^63 *)
Definition modulus : Z := 18446744073709551616.          (* 2^64 *)
Definition min_int : Z := - half_modulus.
Definition max_int : Z := half_modulus - 1.

(** The values an [int64] variable can hold. *)
Definition in_range (z : Z) : Prop := min_int <= z <= max_int.

(** Reduction of a mathematical integer to its [int64] representative. *)
Definition wrap (z : Z) : Z := (z + half_modulus) mod modulus - half_modulus.

Definition add (x y : Z) : Z := wrap (x + y).
Definition sub (x y : Z) : Z := wrap (x - y).
Definition mul (x y : Z) : Z := wrap (x * y).

(** [x &^ y]: clear in [x] the bits set in [y]. *)
Definition and_not (x y : Z) : Z := Z.ldiff x y.

End Int64.

(** ** The configuration record *)

Record Config : Type := mkConfig {
  OutputPath   : string;
  MaxSize      : Z;      (* int64, unit MB *)
  MaxBackups   : Z;      (* int; only ever compared with 0 *)
  LocalTime    : bool;
  PerWriteSize : Z;      (* int64, unit KB *)
  PerSyncSize  : Z;      (* int64, unit MB *)
  Developed    : bool
}.

(** Field assignment [c.F = v]. *)
Definition set_MaxSize (v : Z) (c : Config) : Config :=
  mkConfig (OutputPath c) v (MaxBackups c) (LocalTime c)
           (PerWriteSize c) (PerSyncSize c) (Developed c).

Definition set_MaxBackups (v : Z) (c : Config) : Config :=
  mkConfig (OutputPath c) (MaxSize c) v (LocalTime c)
           (PerWriteSize c) (PerSyncSize c) (Developed c).

Definition set_PerWriteSize (v : Z) (c : Config) : Config :=
  mkConfig (OutputPath c) (MaxSize c) (MaxBackups c) (LocalTime c)
           v (PerSyncSize c) (Developed c).

Definition set_PerSyncSize (v : Z) (c : Config) : Config :=
  mkConfig (OutputPath c) (MaxSize c) (MaxBackups c) (LocalTime c)
           (PerWriteSize c) v (Developed c).

(** A configuration as a Go program can hold it: the three [int64] fields
    are within the [int64] range. *)
Definition wf (c : Config) : Prop :=
  Int64.in_range (MaxSize c) /\
  Int64.in_range (PerWriteSize c) /\
  Int64.in_range (PerSyncSize c).

(** ** Constants and defaults *)

Definition kb : Z := 1024.
Definition mb : Z := 1024 * kb.

Definition defaultPerWriteSize : Z := 64 * kb.
Definition defaultPerSyncSize : Z := 16 * mb.
Definition defaultMaxSize : Z := 128 * mb.
Definition defaultMaxBackups : Z := 4.

Definition pageSize : Z := Z.shiftl 1 12.

(** ** [alignToPage] *)

(** [(n + pageSize - 1) &^ (pageSize - 1)]: the sum is computed on [int64],
    left to right; the mask is a constant expression. *)
Definition alignToPage (n : Z) : Z :=
  Int64.and_not (Int64.sub (Int64.add n pageSize) 1) (pageSize - 1).

(** ** [Config.adjust] *)

(** [k, m := kb, mb; if c.Developed { k, m = 1, 1 }]. *)
Definition units (c : Config) : Z * Z :=
  if Developed c then (1, 1) else (kb, mb).

(** First half of [adjust]: defaults for unset fields, unit conversion for
    the others. *)
Definition convert (c : Config) : Config :=
  let '(k, m) := units c in
  let c :=
    if MaxSize c <=? 0 then set_MaxSize defaultMaxSize c
    else set_MaxSize (Int64.mul (MaxSize c) m) c in
  let c :=
    if MaxBackups c <=? 0 then set_MaxBackups defaultMaxBackups c
    else c in
  let c :=
    if PerWriteSize c <=? 0 then set_PerWriteSize defaultPerWriteSize c
    else set_PerWriteSize (Int64.mul (PerWriteSize c) k) c in
  let c :=
    if PerSyncSize c <=? 0 then set_PerSyncSize defaultPerSyncSize c
    else set_PerSyncSize (Int64.mul (PerSyncSize c) m) c in
  c.

(** [if c.PerSyncSize < 2*c.PerWriteSize { c.PerSyncSize = 2 * c.PerWriteSize }]. *)
Definition raiseSync (c : Config) : Config :=
  if PerSyncSize c <? Int64.mul 2 (PerWriteSize c)
  then set_PerSyncSize (Int64.mul 2 (PerWriteSize c)) c
  else c.

(** The three [alignToPage] assignments. *)
Definition alignSizes (c : Config) : Config :=
  let c := set_MaxSize (alignToPage (MaxSize c)) c in
  let c := set_PerWriteSize (alignToPage (PerWriteSize c)) c in
  let c := set_PerSyncSize (alignToPage (PerSyncSize c)) c in
  c.

(** The whole of [adjust]; the in-place update of [*c] is the returned
    record. *)
Definition adjust (c : Config) : Config :=
  let c := convert c in
  if negb (Developed c) then alignSizes (raiseSync c) else c.

(** ** Notions used to state the properties *)

(** Largest [int64] that is a multiple of the page size. *)
Definition maxAligned : Z := Int64.max_int - (pageSize - 1).

(** [r] is [n] rounded up to the nearest multiple of the page size. *)
Definition roundedUp (n r : Z) : Prop :=
  (pageSize | r) /\ n <= r < n + pageSize.

(** Strict-mode sizes for which none of [adjust]'s [int64] operations
    overflows: the conversions to bytes, the doubling of the flush size
    and the rounding to a page. *)
Definition noOverflow (c : Config) : Prop :=
  MaxSize c * mb <= Int64.max_int /\
  2 * (PerWriteSize c * kb) <= maxAligned /\
  PerSyncSize c * mb <= Int64.max_int.

(** A default configuration: every field left unset. *)
Definition zeroConfig (path : string) (dev : bool) : Config :=
  mkConfig path 0 0 false 0 0 dev.

(** [if v <= 0 { v = d }]. *)
Definition defaulted (d v : Z) : Z := if v <=? 0 then d else v.

(** ** Sample configurations *)

(** The tiny thresholds of a relaxed-mode test: rotation 9, flush 3,
    sync 6 bytes. *)
Definition tinyRelaxed : Config :=
  mkConfig "app.log" 9 2 false 3 6 true.

(** A typical production configuration: 256 MB files, 128 KB writes,
    8 MB syncs. *)
Definition production : Config :=
  mkConfig "app.log" 256 8 true 128 8 false.


(** A flush size of 2 MB with a sync size of 1 MB. *)
Definition smallSync : Config :=
  mkConfig "app.log" 64 0 false 2048 1 false.

(** ** Unsigned field constructors (field.go) *)

Module Zap.

(** The values a [uint64] variable can hold. *)
Definition is_uint64 (v : Z) : Prop := 0 <= v < Int64.modulus.

(** The conversion [uint64(v)]. *)
Definition to_uint64 (v : Z) : Z := v mod Int64.modulus.

Section Zapcore.

(** [Field] is an alias of [zapcore.Field], declared with the
    [zapcore.FieldType] constants in package zapcore: the type of the
    tags, the tag [Uint64Type] and the type of [interface{}] payloads are
    parameters. The record has the fields that the composite literals of
    field.go name; a field left out of a literal has its zero value. *)
Variable FieldType : Type.
Variable Uint64Type : FieldType.
Variable Iface : Type.

Record Field : Type := mkField {
  Key       : string;
  Type_     : FieldType;
  Integer   : Z;               (* int64 *)
  String_   : string;
  Interface : option Iface     (* [None] is nil *)
}.

(** [Field{Key: key, Type: zapcore.Uint64Type, Integer: int64(val)}]. *)
Definition Uint64 (key : string) (val : Z) : Field :=
  mkField key Uint64Type (Int64.wrap val) EmptyString None.

(** [Uint64(key, uint64(val))]. *)
Definition Uint (key : string) (val : Z) : Field :=
  Uint64 key (to_uint64 val).

End Zapcore.

Arguments Key {FieldType Iface} f.
Arguments Integer {FieldType Iface} f.
Arguments Uint64 {FieldType} Uint64Type {Iface} key val.
Arguments Uint {FieldType} Uint64Type {Iface} key val.

End Zap.

(** ** [int64] arithmetic facts *)

Section Int64Facts.

Import Int64.

Lemma wrap_in_range (z : Z) : in_range (wrap z).
Proof.
  unfold in_range, wrap, min_int, max_int, modulus, half_modulus.
  pose proof (Z.mod_pos_bound (z + 9223372036854775808) 18446744073709551616).
  lia.
Qed.

Lemma wrap_small (z : Z) : in_range z -> wrap z = z.
Proof.
  unfold in_range, wrap, min_int, max_int, modulus, half_modulus.
  intros H. rewrite Z.mod_small; lia.
Qed.

(** [wrap] only moves its argument by a multiple of [2^64]. *)
Lemma wrap_shift (z : Z) : exists q, wrap z = z + q * modulus.
Proof.
  exists (- ((z + half_modulus) / modulus)).
  unfold wrap. rewrite Z.mod_eq by discriminate. lia.
Qed.

Lemma wrap_wrap (z : Z) : wrap (wrap z) = wrap z.
Proof. apply wrap_small, wrap_in_range. Qed.

(** Reduction modulo a divisor of [2^64] does not see the wrap-around. *)
Lemma wrap_mod (z d : Z) : (d | modulus) -> wrap z mod d = z mod d.
Proof.
  intros [k Hk]. destruct (wrap_shift z) as [q ->].
  rewrite Hk, Z.mul_assoc. apply Z_mod_plus_full.
Qed.

Lemma mul_in_range (x y : Z) : in_range (mul x y).
Proof. apply wrap_in_range. Qed.

Lemma mul_one_r (x : Z) : in_range x -> mul x 1 = x.
Proof. intros H. unfold mul. rewrite Z.mul_1_r. now apply wrap_small. Qed.

(** The left-to-right sum [n + pageSize - 1] is [n + 4095] reduced once. *)
Lemma add_sub_page (n : Z) :
  sub (add n pageSize) 1 = wrap (n + (pageSize - 1)).
Proof.
  unfold sub, add.
  destruct (wrap_shift (n + pageSize)) as [q Hq]. rewrite Hq.
  replace (n + pageSize + q * modulus - 1)
    with (n + (pageSize - 1) + q * modulus) by lia.
  unfold wrap.
  replace (n + (pageSize - 1) + q * modulus + half_modulus)
    with (n + (pageSize - 1) + half_modulus + q * modulus) by lia.
  now rewrite Z_mod_plus_full.
Qed.

(** Clearing the low twelve bits is truncation to a multiple of 4096. *)
Lemma and_not_page_mask (x : Z) :
  and_not x (pageSize - 1) = pageSize * (x / pageSize).
Proof.
  unfold and_not.
  change (pageSize - 1) with (Z.ones 12).
  rewrite Z.ldiff_ones_r by lia.
  rewrite Z.shiftl_mul_pow2, Z.shiftr_div_pow2 by lia.
  change (2 ^ 12) with pageSize. lia.
Qed.

End Int64Facts.

(** ** Facts about [alignToPage] *)

Lemma alignToPage_eq (n : Z) :
  alignToPage n = pageSize * (Int64.wrap (n + (pageSize - 1)) / pageSize).
Proof.
  unfold alignToPage. now rewrite add_sub_page, and_not_page_mask.
Qed.

Lemma alignToPage_divide (n : Z) : (pageSize | alignToPage n).
Proof. rewrite alignToPage_eq. apply Z.divide_factor_l. Qed.

Lemma alignToPage_in_range (n : Z) : Int64.in_range (alignToPage n).
Proof.
  rewrite alignToPage_eq.
  pose proof (wrap_in_range (n + (pageSize - 1))) as H.
  revert H. generalize (Int64.wrap (n + (pageSize - 1))). intros w.
  unfold Int64.in_range, Int64.min_int, Int64.max_int, Int64.half_modulus.
  change pageSize with 4096. intros H.
  Z.div_mod_to_equations. lia.
Qed.

(** Below the last page-aligned [int64], [alignToPage] rounds up. *)
Lemma alignToPage_roundedUp (n : Z) :
  Int64.min_int <= n <= maxAligned -> roundedUp n (alignToPage n).
Proof.
  intros H. split; [apply alignToPage_divide|].
  rewrite alignToPage_eq, wrap_small.
  - change pageSize with 4096. Z.div_mod_to_equations. lia.
  - revert H. unfold maxAligned, Int64.in_range, Int64.min_int,
      Int64.max_int, Int64.half_modulus. change pageSize with 4096. lia.
Qed.

(** A page-aligned [int64] is left alone. *)
Lemma alignToPage_aligned (n : Z) :
  Int64.in_range n -> (pageSize | n) -> alignToPage n = n.
Proof.
  intros Hr [q ->].
  assert (Hq : q * pageSize <= maxAligned).
  { revert Hr. unfold maxAligned, Int64.in_range, Int64.min_int,
      Int64.max_int, Int64.half_modulus. change pageSize with 4096. lia. }
  destruct (alignToPage_roundedUp (q * pageSize)) as [[r Hr'] Hb].
  { split; [apply Hr | exact Hq]. }
  rewrite Hr' in *. revert Hb. change pageSize with 4096. nia.
Qed.

(** ** The fields of [convert c] and [adjust c] *)

Ltac case_fields c :=
  destruct c as [path M B lt W S dev];
  unfold adjust, raiseSync, alignSizes, convert, units;
  cbn -[Z.leb Z.ltb Int64.mul alignToPage];
  destruct dev; cbn -[Z.leb Z.ltb Int64.mul alignToPage];
  repeat match goal with
         | |- context [?x <=? 0] =>
             is_var x; destruct (x <=? 0); cbn -[Z.leb Z.ltb Int64.mul alignToPage]
         | |- context [?x <? ?y] =>
             destruct (x <? y); cbn -[Z.leb Z.ltb Int64.mul alignToPage]
         end.

Section Fields.

Variable c : Config.

Lemma convert_MaxSize :
  MaxSize (convert c) =
  if MaxSize c <=? 0 then defaultMaxSize
  else Int64.mul (MaxSize c) (snd (units c)).
Proof. case_fields c; reflexivity. Qed.

Lemma convert_MaxBackups :
  MaxBackups (convert c) =
  if MaxBackups c <=? 0 then defaultMaxBackups else MaxBackups c.
Proof. case_fields c; reflexivity. Qed.

Lemma convert_PerWriteSize :
  PerWriteSize (convert c) =
  if PerWriteSize c <=? 0 then defaultPerWriteSize
  else Int64.mul (PerWriteSize c) (fst (units c)).
Proof. case_fields c; reflexivity. Qed.

Lemma convert_PerSyncSize :
  PerSyncSize (convert c) =
  if PerSyncSize c <=? 0 then defaultPerSyncSize
  else Int64.mul (PerSyncSize c) (snd (units c)).
Proof. case_fields c; reflexivity. Qed.

Lemma convert_Developed : Developed (convert c) = Developed c.
Proof. case_fields c; reflexivity. Qed.

Lemma adjust_relaxed : Developed c = true -> adjust c = convert c.
Proof.
  intros H. unfold adjust. now rewrite convert_Developed, H.
Qed.

Lemma adjust_strict :
  Developed c = false -> adjust c = alignSizes (raiseSync (convert c)).
Proof.
  intros H. unfold adjust. now rewrite convert_Developed, H.
Qed.

Lemma adjust_MaxSize :
  Developed c = false ->
  MaxSize (adjust c) = alignToPage (MaxSize (convert c)).
Proof.
  intros H. rewrite (adjust_strict H). unfold raiseSync.
  now destruct (_ <? _).
Qed.

Lemma adjust_PerWriteSize :
  Developed c = false ->
  PerWriteSize (adjust c) = alignToPage (PerWriteSize (convert c)).
Proof.
  intros H. rewrite (adjust_strict H). unfold raiseSync.
  now destruct (_ <? _).
Qed.

Lemma adjust_PerSyncSize :
  Developed c = false ->
  PerSyncSize (adjust c) =
  alignToPage (PerSyncSize (raiseSync (convert c))).
Proof. intros H. now rewrite (adjust_strict H). Qed.

Lemma adjust_MaxBackups : MaxBackups (adjust c) = MaxBackups (convert c).
Proof. case_fields c; reflexivity. Qed.

(** The sync size after the comparison with twice the flush size. *)
Lemma raiseSync_PerSyncSize :
  PerSyncSize (raiseSync c) =
  Z.max (PerSyncSize c) (Int64.mul 2 (PerWriteSize c)).
Proof.
  unfold raiseSync.
  destruct (Z.ltb_spec (PerSyncSize c) (Int64.mul 2 (PerWriteSize c)));
    cbn; lia.
Qed.

End Fields.

(** Converted sizes are always [int64] values. *)
Lemma convert_in_range (c : Config) :
  Int64.in_range (MaxSize (convert c)) /\
  Int64.in_range (PerWriteSize (convert c)) /\
  Int64.in_range (PerSyncSize (convert c)).
Proof.
  rewrite convert_MaxSize, convert_PerWriteSize, convert_PerSyncSize.
  split; [|split];
    match goal with
    | |- context [?x <=? 0] => destruct (x <=? 0)
    end;
    try apply mul_in_range;
    split; discriminate.
Qed.

(** In strict mode the converted rotation and sync sizes are whole
    mebibytes, hence page aligned, and the converted flush size is a whole
    number of kibibytes. *)
Lemma convert_strict_divide (c : Config) :
  Developed c = false ->
  (mb | MaxSize (convert c)) /\
  (kb | PerWriteSize (convert c)) /\
  (mb | PerSyncSize (convert c)).
Proof.
  intros H.
  rewrite convert_MaxSize, convert_PerWriteSize, convert_PerSyncSize.
  unfold units. rewrite H. cbn [fst snd].
  assert (Hmb : (mb | Int64.modulus)) by (exists 17592186044416; reflexivity).
  assert (Hkb : (kb | Int64.modulus)) by (exists 18014398509481984; reflexivity).
  repeat split;
    match goal with
    | |- context [?x <=? 0] => destruct (x <=? 0)
    end;
    try (apply Z.mod_divide; [discriminate|];
         unfold Int64.mul; rewrite wrap_mod by assumption;
         apply Z_mod_mult).
  - exists 128; reflexivity.
  - exists 64; reflexivity.
  - exists 16; reflexivity.
Qed.

(** ** Relaxed mode: [convert] only fills in defaults *)

Lemma defaulted_idem (d v : Z) :
  0 < d -> defaulted d (defaulted d v) = defaulted d v.
Proof.
  intros Hd. unfold defaulted at 2 3.
  destruct (Z.leb_spec v 0) as [Hv|Hv]; unfold defaulted;
    destruct (Z.leb_spec d 0); destruct (Z.leb_spec v 0); lia.
Qed.

Lemma defaulted_in_range (d v : Z) :
  Int64.in_range d -> Int64.in_range v -> Int64.in_range (defaulted d v).
Proof. unfold defaulted. now destruct (v <=? 0). Qed.

Lemma convert_relaxed (c : Config) :
  Developed c = true -> wf c ->
  convert c =
  mkConfig (OutputPath c)
           (defaulted defaultMaxSize (MaxSize c))
           (defaulted defaultMaxBackups (MaxBackups c))
           (LocalTime c)
           (defaulted defaultPerWriteSize (PerWriteSize c))
           (defaulted defaultPerSyncSize (PerSyncSize c))
           true.
Proof.
  destruct c as [path M B lt W S dev]. cbn [Developed].
  intros -> (HM & HW & HS). cbn in HM, HW, HS.
  unfold convert, units, defaulted.
  cbn -[Z.leb Int64.mul].
  destruct (M <=? 0); cbn -[Z.leb Int64.mul];
    destruct (B <=? 0); cbn -[Z.leb Int64.mul];
    destruct (W <=? 0); cbn -[Z.leb Int64.mul];
    destruct (S <=? 0); cbn -[Z.leb Int64.mul];
    rewrite ?mul_one_r by assumption; reflexivity.
Qed.

Lemma defaults_in_range :
  Int64.in_range defaultMaxSize /\
  Int64.in_range defaultPerWriteSize /\
  Int64.in_range defaultPerSyncSize.
Proof. repeat split; discriminate. Qed.

(** ** Negative fields *)



Section Negative.

Variable c : Config.





End Negative.


(** ** Strict mode arithmetic *)

Ltac int64_consts :=
  unfold maxAligned, Int64.in_range, Int64.min_int, Int64.max_int,
    Int64.half_modulus, defaultMaxSize, defaultPerWriteSize,
    defaultPerSyncSize, mb, kb in *;
  change pageSize with 4096 in *.

Lemma mul_exact (x y : Z) : Int64.in_range (x * y) -> Int64.mul x y = x * y.
Proof. apply wrap_small. Qed.

Lemma mb_page_aligned (n : Z) : (mb | n) -> (pageSize | n).
Proof.
  intros H. apply Z.divide_trans with (m := mb); [|exact H].
  exists 256. reflexivity.
Qed.

Lemma aligned_le_maxAligned (n : Z) :
  Int64.in_range n -> (pageSize | n) -> n <= maxAligned.
Proof. intros Hr [q ->]. int64_consts. lia. Qed.

(** [alignToPage] does not decrease a value it can round. *)
Lemma alignToPage_ge (n : Z) :
  Int64.in_range n -> n <= maxAligned -> n <= alignToPage n.
Proof.
  intros Hr Hn. destruct (alignToPage_roundedUp n) as [_ H]; [|lia].
  split; [apply Hr | exact Hn].
Qed.

(** The rounded value is below every page multiple above the argument. *)
Lemma roundedUp_least (n r m : Z) :
  roundedUp n r -> (pageSize | m) -> n <= m -> r <= m.
Proof.
  intros [[q ->] Hb] [k ->] Hn. revert Hb Hn.
  change pageSize with 4096. nia.
Qed.

Lemma roundedUp_aligned (n : Z) : (pageSize | n) -> roundedUp n n.
Proof. intros H. split; [exact H|]. change pageSize with 4096. lia. Qed.

(** Strict mode, converted rotation size: page aligned, hence kept by
    [alignToPage]. *)
Lemma adjust_MaxSize_strict (c : Config) :
  Developed c = false -> MaxSize (adjust c) = MaxSize (convert c).
Proof.
  intros H. rewrite (adjust_MaxSize _ H).
  destruct (convert_in_range c) as (HM & _).
  destruct (convert_strict_divide _ H) as (DM & _).
  apply alignToPage_aligned; [exact HM | now apply mb_page_aligned].
Qed.

(** Strict mode, converted flush size when the doubled, rounded value
    fits: a positive multiple of 1024, at most [maxAligned / 2]. *)
Lemma convert_PerWriteSize_strict (c : Config) :
  Developed c = false ->
  2 * (PerWriteSize c * kb) <= maxAligned ->
  PerWriteSize (convert c) =
    (if PerWriteSize c <=? 0 then defaultPerWriteSize
     else PerWriteSize c * kb) /\
  0 < PerWriteSize (convert c) /\
  2 * PerWriteSize (convert c) <= maxAligned.
Proof.
  intros H Hb. rewrite convert_PerWriteSize. unfold units. rewrite H.
  cbn [fst]. destruct (Z.leb_spec (PerWriteSize c) 0) as [Hw|Hw].
  - int64_consts. lia.
  - rewrite mul_exact; int64_consts; lia.
Qed.

(** Strict mode: a size given in MB that fits is converted exactly. *)
Lemma mul_mb_pos (v : Z) :
  0 < v -> v * mb <= Int64.max_int -> 0 < Int64.mul v mb.
Proof. intros Hv Hb. rewrite mul_exact; int64_consts; lia. Qed.

(** * The properties of normalisation *)

(** C8. [adjust] is a total function of the configuration (it has no
    failing path), and it leaves [OutputPath], [LocalTime] and [Developed]
    as they were. *)
Theorem adjust_frame (c : Config) :
  exists c' : Config,
    adjust c = c' /\
    OutputPath c' = OutputPath c /\
    LocalTime c' = LocalTime c /\
    Developed c' = Developed c.
Proof.
  exists (adjust c). split; [reflexivity|].
  case_fields c; repeat split.
Qed.

(** C6. When the three sizes and the backup count are zero, the values
    after the defaulting step, before any page alignment, are 128 MiB,
    64 KiB, 16 MiB and 4, and [adjust] returns exactly these. *)
Theorem adjust_zero_defaults (c : Config) :
  MaxSize c = 0 -> MaxBackups c = 0 ->
  PerWriteSize c = 0 -> PerSyncSize c = 0 ->
  (MaxSize (convert c) = 134217728 /\
   PerWriteSize (convert c) = 65536 /\
   PerSyncSize (convert c) = 16777216 /\
   MaxBackups (convert c) = 4) /\
  (MaxSize (adjust c) = 134217728 /\
   PerWriteSize (adjust c) = 65536 /\
   PerSyncSize (adjust c) = 16777216 /\
   MaxBackups (adjust c) = 4).
Proof.
  destruct c as [path M B lt W S dev]. cbn. intros -> -> -> ->.
  destruct dev; vm_compute; repeat split.
Qed.

Lemma adjust_zero_defaults_witness :
  (MaxSize (convert (zeroConfig "app.log" false)) = 134217728 /\
   PerWriteSize (convert (zeroConfig "app.log" false)) = 65536 /\
   PerSyncSize (convert (zeroConfig "app.log" false)) = 16777216 /\
   MaxBackups (convert (zeroConfig "app.log" false)) = 4) /\
  (MaxSize (adjust (zeroConfig "app.log" false)) = 134217728 /\
   PerWriteSize (adjust (zeroConfig "app.log" false)) = 65536 /\
   PerSyncSize (adjust (zeroConfig "app.log" false)) = 16777216 /\
   MaxBackups (adjust (zeroConfig "app.log" false)) = 4).
Proof.
  apply (adjust_zero_defaults (zeroConfig "app.log" false)); reflexivity.
Defined.



(** C10. In relaxed mode ([Developed] true) positive sizes pass through
    [adjust] verbatim: no unit multiplication, no alignment, no raising
    of the sync size. *)
Theorem adjust_relaxed_verbatim (c : Config) :
  wf c -> Developed c = true ->
  0 < MaxSize c -> 0 < PerWriteSize c -> 0 < PerSyncSize c ->
  MaxSize (adjust c) = MaxSize c /\
  PerWriteSize (adjust c) = PerWriteSize c /\
  PerSyncSize (adjust c) = PerSyncSize c.
Proof.
  intros Hwf Hd HM HW HS.
  rewrite (adjust_relaxed _ Hd), (convert_relaxed _ Hd Hwf).
  cbn. unfold defaulted.
  destruct (Z.leb_spec (MaxSize c) 0), (Z.leb_spec (PerWriteSize c) 0),
    (Z.leb_spec (PerSyncSize c) 0); lia.
Qed.

Lemma adjust_relaxed_verbatim_witness :
  MaxSize (adjust tinyRelaxed) = 9 /\
  PerWriteSize (adjust tinyRelaxed) = 3 /\
  PerSyncSize (adjust tinyRelaxed) = 6.
Proof.
  apply (adjust_relaxed_verbatim tinyRelaxed);
    try reflexivity.
  repeat split; discriminate.
Defined.

(** C2, as amended. In relaxed mode [adjust] is idempotent. *)
Theorem adjust_relaxed_idempotent (c : Config) :
  wf c -> Developed c = true -> adjust (adjust c) = adjust c.
Proof.
  intros Hwf Hd.
  rewrite (adjust_relaxed _ Hd), (convert_relaxed _ Hd Hwf).
  destruct defaults_in_range as (DM & DW & DS).
  destruct Hwf as (HM & HW & HS).
  rewrite adjust_relaxed by reflexivity.
  rewrite convert_relaxed; [|reflexivity|].
  - cbn. now rewrite !defaulted_idem.
  - repeat split; cbn; now apply defaulted_in_range.
Qed.

Lemma adjust_relaxed_idempotent_witness :
  adjust (adjust tinyRelaxed) = adjust tinyRelaxed.
Proof.
  apply (adjust_relaxed_idempotent tinyRelaxed); [|reflexivity].
  repeat split; discriminate.
Defined.

(** C2, as stated, fails in strict mode: the defaults are converted to
    bytes by the first call and multiplied by the unit again by the
    second. *)
Lemma adjust_not_idempotent :
  adjust (adjust (zeroConfig "app.log" false))
  <> adjust (zeroConfig "app.log" false).
Proof. intros H. apply (f_equal MaxSize) in H. discriminate H. Qed.

(** Whatever the input, the sizes [adjust] leaves are [int64] values. *)
Lemma raiseSync_in_range (c : Config) :
  Int64.in_range (PerSyncSize c) ->
  Int64.in_range (PerSyncSize (raiseSync c)).
Proof.
  intros H. rewrite raiseSync_PerSyncSize.
  apply Z.max_case; [exact H | apply mul_in_range].
Qed.

Lemma adjust_wf (c : Config) : wf (adjust c).
Proof.
  destruct (convert_in_range c) as (HM & HW & HS).
  destruct (Developed c) eqn:Hd.
  - rewrite (adjust_relaxed _ Hd). unfold wf. auto.
  - unfold wf.
    rewrite (adjust_MaxSize _ Hd), (adjust_PerWriteSize _ Hd),
      (adjust_PerSyncSize _ Hd).
    split; [|split]; apply alignToPage_in_range.
Qed.

(** C7, as amended. In strict mode, when twice the flush size, rounded
    to a page, fits in [int64] and the converted sync size is below twice
    the converted flush size, the sync size is first set to exactly that
    double and then page aligned: the final value is [alignToPage] of the
    double, the least page multiple that is at least the double. *)
Theorem adjust_sync_forced_to_double (c : Config) :
  Developed c = false ->
  2 * (PerWriteSize c * kb) <= maxAligned ->
  PerSyncSize (convert c) < 2 * PerWriteSize (convert c) ->
  PerSyncSize (raiseSync (convert c)) = 2 * PerWriteSize (convert c) /\
  PerSyncSize (adjust c) = alignToPage (2 * PerWriteSize (convert c)) /\
  roundedUp (2 * PerWriteSize (convert c)) (PerSyncSize (adjust c)).
Proof.
  intros Hd Hb Hlt.
  destruct (convert_PerWriteSize_strict _ Hd Hb) as (_ & HWpos & HW2).
  assert (HR : PerSyncSize (raiseSync (convert c))
               = 2 * PerWriteSize (convert c)).
  { rewrite raiseSync_PerSyncSize, mul_exact by (int64_consts; lia).
    apply Z.max_r. lia. }
  rewrite (adjust_PerSyncSize _ Hd), HR.
  split; [reflexivity|]. split; [reflexivity|].
  apply alignToPage_roundedUp. revert HWpos HW2. int64_consts. lia.
Qed.

Lemma adjust_sync_forced_to_double_witness :
  PerSyncSize (raiseSync (convert smallSync))
  = 2 * PerWriteSize (convert smallSync) /\
  PerSyncSize (adjust smallSync)
  = alignToPage (2 * PerWriteSize (convert smallSync)) /\
  roundedUp (2 * PerWriteSize (convert smallSync))
            (PerSyncSize (adjust smallSync)).
Proof.
  apply (adjust_sync_forced_to_double smallSync);
    [reflexivity | discriminate | reflexivity].
Defined.

(** C7, as stated, fails on overflow: a flush size of 2^52 KB converts to
    2^62 bytes, whose double is 2^63 and wraps around to -2^63 in the
    comparison. The default sync size of 16 MiB is below twice the flush
    size, yet it is not raised: it stays 16777216, which is neither
    [alignToPage] of the double nor of the wrapped double. *)
Lemma adjust_sync_not_forced_on_overflow :
  Developed (mkConfig "app.log" 0 0 false 4503599627370496 0 false) = false /\
  PerSyncSize
    (convert (mkConfig "app.log" 0 0 false 4503599627370496 0 false))
  < 2 * PerWriteSize
        (convert (mkConfig "app.log" 0 0 false 4503599627370496 0 false)) /\
  PerSyncSize
    (raiseSync
       (convert (mkConfig "app.log" 0 0 false 4503599627370496 0 false)))
  <> 2 * PerWriteSize
         (convert (mkConfig "app.log" 0 0 false 4503599627370496 0 false)) /\
  PerSyncSize (adjust (mkConfig "app.log" 0 0 false 4503599627370496 0 false))
  = 16777216 /\
  PerSyncSize (adjust (mkConfig "app.log" 0 0 false 4503599627370496 0 false))
  <> alignToPage
       (2 * PerWriteSize
              (convert
                 (mkConfig "app.log" 0 0 false 4503599627370496 0 false))) /\
  PerSyncSize (adjust (mkConfig "app.log" 0 0 false 4503599627370496 0 false))
  <> alignToPage
       (Int64.mul 2
          (PerWriteSize
             (convert
                (mkConfig "app.log" 0 0 false 4503599627370496 0 false)))).
Proof.
  repeat split; try reflexivity; discriminate.
Qed.

(** C1, as amended. In strict mode, when the flush size is unset or a
    whole number of pages (a multiple of 4 KB) and its double fits in
    [int64], the sync size after [adjust] is at least twice the flush
    size. *)
Theorem adjust_sync_twice_flush (c : Config) :
  Developed c = false ->
  PerWriteSize c <= 0 \/ (4 | PerWriteSize c) ->
  2 * (PerWriteSize c * kb) <= maxAligned ->
  2 * PerWriteSize (adjust c) <= PerSyncSize (adjust c).
Proof.
  intros Hd Ha Hb.
  destruct (convert_PerWriteSize_strict _ Hd Hb) as (HW & HWpos & HW2).
  destruct (convert_in_range c) as (_ & HWr & HSr).
  destruct (convert_strict_divide _ Hd) as (_ & _ & DS).
  assert (DW : (pageSize | PerWriteSize (convert c))).
  { rewrite HW. destruct (Z.leb_spec (PerWriteSize c) 0) as [Hw|Hw].
    - exists 16. reflexivity.
    - destruct Ha as [Ha|[q Hq]]; [lia|]. exists q. rewrite Hq.
      unfold kb. change pageSize with 4096. lia. }
  rewrite (adjust_PerWriteSize _ Hd), (adjust_PerSyncSize _ Hd).
  rewrite (alignToPage_aligned _ HWr DW).
  assert (H2 : Int64.mul 2 (PerWriteSize (convert c))
               = 2 * PerWriteSize (convert c)).
  { apply mul_exact. int64_consts. lia. }
  pose proof (raiseSync_in_range _ HSr) as HR.
  pose proof (raiseSync_PerSyncSize (convert c)) as HS1.
  rewrite H2 in HS1.
  pose proof (aligned_le_maxAligned _ HSr (mb_page_aligned _ DS)) as HSm.
  etransitivity; [|apply alignToPage_ge; [exact HR | lia]]. lia.
Qed.

Lemma adjust_sync_twice_flush_witness :
  2 * PerWriteSize (adjust production) <= PerSyncSize (adjust production).
Proof.
  apply (adjust_sync_twice_flush production).
  - reflexivity.
  - right. exists 32. reflexivity.
  - discriminate.
Defined.

(** C1, as stated, fails in relaxed mode, where [adjust] never compares
    the two sizes: flush 3 and sync 1 stay 3 and 1. *)
Lemma adjust_sync_below_twice_flush :
  ~ (2 * PerWriteSize (adjust (mkConfig "app.log" 9 2 false 3 1 true))
     <= PerSyncSize (adjust (mkConfig "app.log" 9 2 false 3 1 true))).
Proof. intros H. apply H. reflexivity. Qed.

(** In strict mode the comparison is made before the alignment, so a
    flush size that is not a whole number of pages can be rounded past
    half the sync size: 513 KB with a 1 MB sync size ends as 528384 and
    1052672 bytes. *)
Remark adjust_unaligned_flush_outgrows_sync :
  PerWriteSize (adjust (mkConfig "app.log" 0 0 false 513 1 false)) = 528384 /\
  PerSyncSize (adjust (mkConfig "app.log" 0 0 false 513 1 false)) = 1052672.
Proof. split; reflexivity. Qed.

(** C3, as amended. [adjust] keeps the order of the converted rotation
    and flush sizes: when the rotation size, after defaulting and unit
    conversion, is at least the flush size, it still is after [adjust]. *)
Theorem adjust_rotation_ge_flush (c : Config) :
  PerWriteSize (convert c) <= MaxSize (convert c) ->
  PerWriteSize (adjust c) <= MaxSize (adjust c).
Proof.
  intros Hle. destruct (Developed c) eqn:Hd.
  - now rewrite (adjust_relaxed _ Hd).
  - destruct (convert_in_range c) as (HM & HW & _).
    destruct (convert_strict_divide _ Hd) as (DM & _).
    apply mb_page_aligned in DM.
    pose proof (aligned_le_maxAligned _ HM DM) as HMm.
    rewrite (adjust_MaxSize_strict _ Hd), (adjust_PerWriteSize _ Hd).
    apply roundedUp_least with (n := PerWriteSize (convert c));
      [|exact DM|exact Hle].
    apply alignToPage_roundedUp. split; [apply HW | lia].
Qed.

Lemma adjust_rotation_ge_flush_witness :
  PerWriteSize (adjust production) <= MaxSize (adjust production).
Proof.
  apply (adjust_rotation_ge_flush production). discriminate.
Defined.

(** C3, as stated, fails: nothing in [adjust] compares the rotation size
    with the flush size. A 1 MB file limit with a 2048 KB write size ends
    as 1048576 and 2097152 bytes. *)
Lemma adjust_rotation_below_flush :
  ~ (PerWriteSize (adjust (mkConfig "app.log" 1 0 false 2048 0 false))
     <= MaxSize (adjust (mkConfig "app.log" 1 0 false 2048 0 false))).
Proof. intros H. apply H. reflexivity. Qed.

(** C4, as amended. For an [int64] configuration that is in relaxed mode,
    or whose sizes are small enough for the unit conversion, the doubling
    of the flush size and the page rounding not to overflow, the three
    sizes after [adjust] are strictly positive [int64] values. *)
Theorem adjust_sizes_positive (c : Config) :
  wf c ->
  (Developed c = false -> noOverflow c) ->
  wf (adjust c) /\
  0 < MaxSize (adjust c) /\
  0 < PerWriteSize (adjust c) /\
  0 < PerSyncSize (adjust c).
Proof.
  intros Hwf Hfit. split; [apply adjust_wf|].
  destruct (Developed c) eqn:Hd.
  - rewrite (adjust_relaxed _ Hd), (convert_relaxed _ Hd Hwf). cbn.
    unfold defaulted.
    destruct (Z.leb_spec (MaxSize c) 0), (Z.leb_spec (PerWriteSize c) 0),
      (Z.leb_spec (PerSyncSize c) 0); repeat split; (reflexivity || lia).
  - destruct (Hfit eq_refl) as (FM & FW & FS).
    destruct (convert_PerWriteSize_strict _ Hd FW) as (_ & HWpos & HW2).
    destruct (convert_in_range c) as (_ & HWr & HSr).
    destruct (convert_strict_divide _ Hd) as (_ & _ & DS).
    assert (HMpos : 0 < MaxSize (convert c)).
    { rewrite convert_MaxSize. unfold units. rewrite Hd. cbn [snd].
      destruct (Z.leb_spec (MaxSize c) 0);
        [reflexivity | now apply mul_mb_pos]. }
    assert (HSpos : 0 < PerSyncSize (convert c)).
    { rewrite convert_PerSyncSize. unfold units. rewrite Hd. cbn [snd].
      destruct (Z.leb_spec (PerSyncSize c) 0);
        [reflexivity | now apply mul_mb_pos]. }
    assert (H2 : Int64.mul 2 (PerWriteSize (convert c))
                 = 2 * PerWriteSize (convert c)).
    { apply mul_exact. int64_consts. lia. }
    pose proof (raiseSync_in_range _ HSr) as HR.
    pose proof (raiseSync_PerSyncSize (convert c)) as HS1.
    rewrite H2 in HS1.
    pose proof (aligned_le_maxAligned _ HSr (mb_page_aligned _ DS)) as HSm.
    rewrite (adjust_MaxSize_strict _ Hd), (adjust_PerWriteSize _ Hd),
      (adjust_PerSyncSize _ Hd).
    split; [exact HMpos|]. split.
    + apply Z.lt_le_trans with (m := PerWriteSize (convert c));
        [exact HWpos | apply alignToPage_ge; [exact HWr | lia]].
    + apply Z.lt_le_trans with (m := PerSyncSize (raiseSync (convert c)));
        [lia | apply alignToPage_ge; [exact HR | lia]].
Qed.

Lemma adjust_sizes_positive_witness :
  wf (adjust production) /\
  0 < MaxSize (adjust production) /\
  0 < PerWriteSize (adjust production) /\
  0 < PerSyncSize (adjust production).
Proof.
  apply (adjust_sizes_positive production).
  - repeat split; discriminate.
  - intros _. repeat split; discriminate.
Defined.

(** C4, as stated, fails on overflow: a rotation size of 2^43 MB is 2^63
    bytes, which wraps around to the most negative [int64]. *)
Lemma adjust_rotation_negative :
  ~ (0 < MaxSize (adjust (mkConfig "app.log" 8796093022208 0 false 0 0 false)) /\
     0 < PerWriteSize (adjust (mkConfig "app.log" 8796093022208 0 false 0 0 false)) /\
     0 < PerSyncSize (adjust (mkConfig "app.log" 8796093022208 0 false 0 0 false))).
Proof. intros (H & _). discriminate H. Qed.

(** C5, as amended. In strict mode the three sizes after [adjust] are
    multiples of 4096. The rotation size is its converted value rounded
    up to a page; so are the flush size and the sync size (after the
    comparison with twice the flush size) whenever the value to round is
    at most [maxAligned], the largest page-aligned [int64]. *)
Theorem adjust_strict_page_aligned (c : Config) :
  Developed c = false ->
  ((pageSize | MaxSize (adjust c)) /\
   (pageSize | PerWriteSize (adjust c)) /\
   (pageSize | PerSyncSize (adjust c))) /\
  roundedUp (MaxSize (convert c)) (MaxSize (adjust c)) /\
  (PerWriteSize (convert c) <= maxAligned ->
   roundedUp (PerWriteSize (convert c)) (PerWriteSize (adjust c))) /\
  (PerSyncSize (raiseSync (convert c)) <= maxAligned ->
   roundedUp (PerSyncSize (raiseSync (convert c))) (PerSyncSize (adjust c))).
Proof.
  intros Hd.
  destruct (convert_in_range c) as (HM & HW & HS).
  pose proof (raiseSync_in_range _ HS) as HR.
  pose proof (adjust_MaxSize_strict _ Hd) as EM.
  rewrite (adjust_MaxSize _ Hd) in EM.
  rewrite (adjust_MaxSize _ Hd), (adjust_PerWriteSize _ Hd),
    (adjust_PerSyncSize _ Hd).
  split; [|split; [|split]].
  - split; [|split]; apply alignToPage_divide.
  - apply alignToPage_roundedUp. split; [apply HM|].
    apply aligned_le_maxAligned; [exact HM|].
    rewrite <- EM. apply alignToPage_divide.
  - intros Hb. apply alignToPage_roundedUp. split; [apply HW | exact Hb].
  - intros Hb. apply alignToPage_roundedUp. split; [apply HR | exact Hb].
Qed.

Lemma adjust_strict_page_aligned_witness :
  ((pageSize | MaxSize (adjust smallSync)) /\
   (pageSize | PerWriteSize (adjust smallSync)) /\
   (pageSize | PerSyncSize (adjust smallSync))) /\
  roundedUp (MaxSize (convert smallSync)) (MaxSize (adjust smallSync)) /\
  roundedUp (PerWriteSize (convert smallSync))
            (PerWriteSize (adjust smallSync)) /\
  roundedUp (PerSyncSize (raiseSync (convert smallSync)))
            (PerSyncSize (adjust smallSync)).
Proof.
  destruct (adjust_strict_page_aligned smallSync eq_refl)
    as (HD & HM & HW & HS).
  split; [exact HD|]. split; [exact HM|].
  split; [apply HW; discriminate | apply HS; discriminate].
Defined.

(** C5, as stated, fails on overflow: a flush size of 2^53 - 1 KB converts
    to 2^63 - 1024 bytes; adding 4095 wraps around and the aligned value
    is -2^63, a multiple of 4096 but not the converted value rounded up. *)
Lemma adjust_flush_not_rounded_up :
  Developed (mkConfig "app.log" 0 0 false 9007199254740991 0 false) = false /\
  ~ roundedUp
      (PerWriteSize
         (convert (mkConfig "app.log" 0 0 false 9007199254740991 0 false)))
      (PerWriteSize
         (adjust (mkConfig "app.log" 0 0 false 9007199254740991 0 false))).
Proof.
  split; [reflexivity|]. intros [_ [H _]]. apply H. reflexivity.
Qed.


(** * Further properties of [alignToPage] *)

(** X1. [alignToPage] is idempotent on every input, overflowing ones
    included: its result is always a page-aligned [int64]. *)
Theorem alignToPage_idempotent (n : Z) :
  alignToPage (alignToPage n) = alignToPage n.
Proof.
  apply alignToPage_aligned;
    [apply alignToPage_in_range | apply alignToPage_divide].
Qed.

(** X2. For an [int64] up to [maxAligned], [alignToPage n] is the least
    multiple of the page size that is at least [n]. *)
Theorem alignToPage_least_multiple (n : Z) :
  Int64.min_int <= n <= maxAligned ->
  (pageSize | alignToPage n) /\
  n <= alignToPage n /\
  forall m : Z, (pageSize | m) -> n <= m -> alignToPage n <= m.
Proof.
  intros H. pose proof (alignToPage_roundedUp n H) as R.
  split; [apply R|]. split; [apply R|].
  intros m Hm Hn. now apply roundedUp_least with (n := n).
Qed.

Lemma alignToPage_least_multiple_witness :
  (pageSize | alignToPage 5000) /\
  5000 <= alignToPage 5000 /\
  alignToPage 5000 <= 8192.
Proof.
  destruct (alignToPage_least_multiple 5000) as (HD & HG & HL).
  - split; discriminate.
  - split; [exact HD|]. split; [exact HG|].
    apply HL; [exists 2; reflexivity | discriminate].
Defined.

(** X3. Above [maxAligned] the sum [n + pageSize - 1] overflows: every
    [int64] in the last, incomplete page is sent to the most negative
    [int64] instead of being rounded up. *)
Theorem alignToPage_overflow (n : Z) :
  maxAligned < n <= Int64.max_int -> alignToPage n = Int64.min_int.
Proof.
  intros H. rewrite alignToPage_eq. unfold Int64.wrap.
  revert H. unfold maxAligned, Int64.min_int, Int64.max_int,
    Int64.modulus, Int64.half_modulus.
  change pageSize with 4096. intros H.
  Z.div_mod_to_equations. lia.
Qed.

Lemma alignToPage_overflow_witness :
  alignToPage 9223372036854775807 = Int64.min_int.
Proof.
  apply (alignToPage_overflow 9223372036854775807).
  split; [reflexivity | discriminate].
Defined.

(** X4. The [int64] values [alignToPage] leaves unchanged are exactly the
    multiples of the page size. *)
Theorem alignToPage_fixed_iff (n : Z) :
  Int64.in_range n -> (alignToPage n = n <-> (pageSize | n)).
Proof.
  intros Hr. split.
  - intros <-. apply alignToPage_divide.
  - now apply alignToPage_aligned.
Qed.

Lemma alignToPage_fixed_iff_witness :
  alignToPage 8192 = 8192 <-> (pageSize | 8192).
Proof.
  apply (alignToPage_fixed_iff 8192). split; discriminate.
Defined.

(** X5. [alignToPage] is monotone on the [int64] values up to
    [maxAligned]. *)
Theorem alignToPage_monotone (n m : Z) :
  Int64.min_int <= n -> n <= m -> m <= maxAligned ->
  alignToPage n <= alignToPage m.
Proof.
  intros Hn Hnm Hm.
  destruct (alignToPage_roundedUp m) as [Dm Bm]; [lia|].
  apply roundedUp_least with (n := n);
    [apply alignToPage_roundedUp; lia | exact Dm | lia].
Qed.

Lemma alignToPage_monotone_witness : alignToPage 1 <= alignToPage 4097.
Proof.
  apply (alignToPage_monotone 1 4097); discriminate.
Defined.

(** * Further properties of [adjust] *)

(** Strict mode with a flush size whose double fits: what is known about
    the sync size between the comparison and the alignment. *)
Lemma strict_sync_facts (c : Config) :
  Developed c = false ->
  2 * (PerWriteSize c * kb) <= maxAligned ->
  0 < PerWriteSize (convert c) /\
  2 * PerWriteSize (convert c) <= maxAligned /\
  Int64.in_range (PerWriteSize (convert c)) /\
  Int64.in_range (PerSyncSize (convert c)) /\
  (pageSize | PerSyncSize (convert c)) /\
  PerSyncSize (raiseSync (convert c)) =
    Z.max (PerSyncSize (convert c)) (2 * PerWriteSize (convert c)) /\
  Int64.in_range (PerSyncSize (raiseSync (convert c))) /\
  PerSyncSize (raiseSync (convert c)) <= maxAligned.
Proof.
  intros Hd Hb.
  destruct (convert_PerWriteSize_strict _ Hd Hb) as (_ & HWpos & HW2).
  destruct (convert_in_range c) as (_ & HWr & HSr).
  destruct (convert_strict_divide _ Hd) as (_ & _ & DS).
  apply mb_page_aligned in DS.
  pose proof (aligned_le_maxAligned _ HSr DS) as HSm.
  pose proof (raiseSync_in_range _ HSr) as HR.
  pose proof (raiseSync_PerSyncSize (convert c)) as HS1.
  rewrite mul_exact in HS1 by (int64_consts; lia).
  repeat (split; [assumption|]). lia.
Qed.

(** X6. Whatever the mode and the sizes, the backup count after [adjust]
    is strictly positive, and a positive count is kept as given. *)
Theorem adjust_MaxBackups_positive (c : Config) :
  0 < MaxBackups (adjust c) /\
  (0 < MaxBackups c -> MaxBackups (adjust c) = MaxBackups c).
Proof.
  rewrite adjust_MaxBackups, convert_MaxBackups.
  destruct (Z.leb_spec (MaxBackups c) 0); split; try reflexivity; lia.
Qed.

Lemma adjust_MaxBackups_positive_witness :
  0 < MaxBackups (adjust production) /\
  MaxBackups (adjust production) = 8.
Proof.
  destruct (adjust_MaxBackups_positive production) as (HP & HK).
  split; [exact HP | apply HK; reflexivity].
Defined.

(** X7. In strict mode a positive rotation size that fits in [int64] once
    converted is exactly its value in MB times 1048576: whole mebibytes
    are page aligned, so the alignment never changes it. *)
Theorem adjust_strict_MaxSize_exact (c : Config) :
  Developed c = false ->
  0 < MaxSize c -> MaxSize c * mb <= Int64.max_int ->
  MaxSize (adjust c) = MaxSize c * 1048576.
Proof.
  intros Hd Hpos Hb.
  rewrite (adjust_MaxSize_strict _ Hd), convert_MaxSize.
  unfold units. rewrite Hd. cbn [snd].
  destruct (Z.leb_spec (MaxSize c) 0); [lia|].
  rewrite mul_exact; [reflexivity|]. int64_consts. lia.
Qed.

Lemma adjust_strict_MaxSize_exact_witness :
  MaxSize (adjust production) = 256 * 1048576.
Proof.
  apply (adjust_strict_MaxSize_exact production);
    [reflexivity | reflexivity | discriminate].
Defined.

(** X8. In strict mode a positive flush size given in KB is rounded up to
    a whole number of pages, that is to the next multiple of 4 KB. *)
Theorem adjust_strict_PerWriteSize_pages (c : Config) :
  Developed c = false ->
  0 < PerWriteSize c -> PerWriteSize c * kb <= maxAligned ->
  PerWriteSize (adjust c) = pageSize * ((PerWriteSize c + 3) / 4).
Proof.
  intros Hd Hpos Hb.
  rewrite (adjust_PerWriteSize _ Hd), convert_PerWriteSize.
  unfold units. rewrite Hd. cbn [fst].
  destruct (Z.leb_spec (PerWriteSize c) 0); [lia|].
  rewrite mul_exact by (int64_consts; lia).
  rewrite alignToPage_eq, wrap_small by (int64_consts; lia).
  revert Hb. int64_consts. intros Hb.
  Z.div_mod_to_equations. lia.
Qed.

Lemma adjust_strict_PerWriteSize_pages_witness :
  PerWriteSize (adjust (mkConfig "app.log" 0 0 false 513 1 false))
  = pageSize * ((513 + 3) / 4).
Proof.
  apply (adjust_strict_PerWriteSize_pages
           (mkConfig "app.log" 0 0 false 513 1 false));
    [reflexivity | reflexivity | discriminate].
Defined.

(** X9. In strict mode, when twice the flush size fits, the sync size
    after [adjust] is the larger of the converted sync size and the
    page-rounded double of the converted flush size. *)
Theorem adjust_strict_PerSyncSize_max (c : Config) :
  Developed c = false ->
  2 * (PerWriteSize c * kb) <= maxAligned ->
  PerSyncSize (adjust c) =
  Z.max (PerSyncSize (convert c))
        (alignToPage (2 * PerWriteSize (convert c))).
Proof.
  intros Hd Hb.
  destruct (strict_sync_facts _ Hd Hb)
    as (HWpos & HW2 & HWr & HSr & DS & HS1 & HR & HRm).
  rewrite (adjust_PerSyncSize _ Hd), HS1.
  assert (HD : Int64.min_int <= 2 * PerWriteSize (convert c) <= maxAligned).
  { revert HWpos HW2. int64_consts. lia. }
  pose proof (alignToPage_roundedUp _ HD) as RD.
  destruct (Z.max_spec (PerSyncSize (convert c))
                       (2 * PerWriteSize (convert c))) as [[Hlt ->]|[Hge ->]].
  - destruct RD as [_ RD]. lia.
  - rewrite (alignToPage_aligned _ HSr DS).
    pose proof (roundedUp_least _ _ _ RD DS Hge). lia.
Qed.

Lemma adjust_strict_PerSyncSize_max_witness :
  PerSyncSize (adjust smallSync) =
  Z.max (PerSyncSize (convert smallSync))
        (alignToPage (2 * PerWriteSize (convert smallSync))).
Proof.
  apply (adjust_strict_PerSyncSize_max smallSync);
    [reflexivity | discriminate].
Defined.

(** X10. In strict mode, when twice the flush size fits, the sync size
    after [adjust] is at least twice the flush size as converted, and it
    falls short of twice the aligned flush size by at most one page. *)
Theorem adjust_strict_sync_shortfall (c : Config) :
  Developed c = false ->
  2 * (PerWriteSize c * kb) <= maxAligned ->
  2 * PerWriteSize (convert c) <= PerSyncSize (adjust c) /\
  2 * PerWriteSize (adjust c) - pageSize <= PerSyncSize (adjust c).
Proof.
  intros Hd Hb.
  destruct (strict_sync_facts _ Hd Hb)
    as (HWpos & HW2 & HWr & HSr & DS & HS1 & HR & HRm).
  rewrite (adjust_PerWriteSize _ Hd), (adjust_PerSyncSize _ Hd).
  assert (HWb : Int64.min_int <= PerWriteSize (convert c) <= maxAligned).
  { split; [apply HWr | lia]. }
  destruct (alignToPage_roundedUp _ HWb) as [[w Hw] BW].
  destruct (alignToPage_roundedUp (PerSyncSize (raiseSync (convert c))))
    as [[s Hs] BS]; [split; [apply HR | exact HRm]|].
  rewrite Hw, Hs in *. revert BW BS.
  change pageSize with 4096. lia.
Qed.

Lemma adjust_strict_sync_shortfall_witness :
  2 * PerWriteSize (convert (mkConfig "app.log" 0 0 false 513 1 false))
  <= PerSyncSize (adjust (mkConfig "app.log" 0 0 false 513 1 false)) /\
  2 * PerWriteSize (adjust (mkConfig "app.log" 0 0 false 513 1 false))
  - pageSize
  <= PerSyncSize (adjust (mkConfig "app.log" 0 0 false 513 1 false)).
Proof.
  apply (adjust_strict_sync_shortfall
           (mkConfig "app.log" 0 0 false 513 1 false));
    [reflexivity | discriminate].
Defined.

(** X11. In strict mode without overflow the thresholds have a floor:
    the rotation and sync sizes are at least 1 MiB and the flush size is
    at least one page, however small the configured values. *)
Theorem adjust_strict_floor (c : Config) :
  Developed c = false -> noOverflow c ->
  mb <= MaxSize (adjust c) /\
  pageSize <= PerWriteSize (adjust c) /\
  mb <= PerSyncSize (adjust c).
Proof.
  intros Hd (FM & FW & FS).
  destruct (strict_sync_facts _ Hd FW)
    as (HWpos & HW2 & HWr & HSr & DS & HS1 & HR & HRm).
  assert (HM : mb <= MaxSize (convert c)).
  { rewrite convert_MaxSize. unfold units. rewrite Hd. cbn [snd].
    destruct (Z.leb_spec (MaxSize c) 0); [discriminate|].
    rewrite mul_exact; int64_consts; lia. }
  assert (HS : mb <= PerSyncSize (convert c)).
  { rewrite convert_PerSyncSize. unfold units. rewrite Hd. cbn [snd].
    destruct (Z.leb_spec (PerSyncSize c) 0); [discriminate|].
    rewrite mul_exact; int64_consts; lia. }
  rewrite (adjust_MaxSize_strict _ Hd), (adjust_PerWriteSize _ Hd),
    (adjust_PerSyncSize _ Hd).
  split; [exact HM|]. split.
  - destruct (alignToPage_roundedUp (PerWriteSize (convert c)))
      as [[w Hw] BW]; [split; [apply HWr | lia]|].
    rewrite Hw in *. revert BW HWpos. change pageSize with 4096. lia.
  - pose proof (alignToPage_ge _ HR HRm). lia.
Qed.

Lemma adjust_strict_floor_witness :
  mb <= MaxSize (adjust (mkConfig "app.log" 1 1 false 1 1 false)) /\
  pageSize <= PerWriteSize (adjust (mkConfig "app.log" 1 1 false 1 1 false)) /\
  mb <= PerSyncSize (adjust (mkConfig "app.log" 1 1 false 1 1 false)).
Proof.
  apply (adjust_strict_floor (mkConfig "app.log" 1 1 false 1 1 false));
    [reflexivity | repeat split; discriminate].
Defined.

(** X14. In strict mode, positive sizes with a flush size that is a
    multiple of 4 KB and a sync size of at least twice the flush size are
    only converted to bytes, provided the products fit in [int64]: nothing
    is rounded or raised. *)
Theorem adjust_strict_pure_conversion (c : Config) :
  Developed c = false ->
  0 < MaxSize c -> 0 < PerWriteSize c -> 0 < PerSyncSize c ->
  (4 | PerWriteSize c) ->
  2 * (PerWriteSize c * kb) <= PerSyncSize c * mb ->
  MaxSize c * mb <= Int64.max_int ->
  PerSyncSize c * mb <= Int64.max_int ->
  MaxSize (adjust c) = MaxSize c * mb /\
  PerWriteSize (adjust c) = PerWriteSize c * kb /\
  PerSyncSize (adjust c) = PerSyncSize c * mb.
Proof.
  intros Hd HM HW HS [q Hq] H2 FM FS.
  assert (FW : 2 * (PerWriteSize c * kb) <= maxAligned).
  { revert H2 FS HW. int64_consts. lia. }
  destruct (strict_sync_facts _ Hd FW)
    as (_ & _ & HWr & HSr & DS & HS1 & _ & _).
  assert (EM : MaxSize (convert c) = MaxSize c * mb).
  { rewrite convert_MaxSize. unfold units. rewrite Hd. cbn [snd].
    destruct (Z.leb_spec (MaxSize c) 0); [lia|].
    apply mul_exact. int64_consts. lia. }
  assert (EW : PerWriteSize (convert c) = PerWriteSize c * kb).
  { rewrite convert_PerWriteSize. unfold units. rewrite Hd. cbn [fst].
    destruct (Z.leb_spec (PerWriteSize c) 0); [lia|].
    apply mul_exact. revert FW. int64_consts. lia. }
  assert (ES : PerSyncSize (convert c) = PerSyncSize c * mb).
  { rewrite convert_PerSyncSize. unfold units. rewrite Hd. cbn [snd].
    destruct (Z.leb_spec (PerSyncSize c) 0); [lia|].
    apply mul_exact. int64_consts. lia. }
  rewrite (adjust_MaxSize_strict _ Hd), (adjust_PerWriteSize _ Hd),
    (adjust_PerSyncSize _ Hd).
  split; [exact EM|]. split.
  - rewrite <- EW. apply alignToPage_aligned; [exact HWr|].
    rewrite EW, Hq. exists q. unfold kb. change pageSize with 4096. lia.
  - rewrite <- ES.
    replace (PerSyncSize (raiseSync (convert c)))
      with (PerSyncSize (convert c)) by lia.
    now apply alignToPage_aligned.
Qed.

Lemma adjust_strict_pure_conversion_witness :
  MaxSize (adjust production) = 256 * mb /\
  PerWriteSize (adjust production) = 128 * kb /\
  PerSyncSize (adjust production) = 8 * mb.
Proof.
  apply (adjust_strict_pure_conversion production);
    try reflexivity; try discriminate.
  exists 32. reflexivity.
Defined.

(** * Unsigned field constructors *)

Section FieldFacts.

Variable FieldType : Type.
Variable Uint64Type : FieldType.
Variable Iface : Type.

(** The [int64] a [uint64] is converted to, and the way back. *)
Lemma wrap_uint64 (v : Z) :
  Zap.is_uint64 v ->
  Int64.wrap v = (if v <? Int64.half_modulus then v else v - Int64.modulus) /\
  Zap.to_uint64 (Int64.wrap v) = v.
Proof.
  unfold Zap.is_uint64, Zap.to_uint64, Int64.wrap, Int64.modulus,
    Int64.half_modulus.
  intros H.
  destruct (Z.ltb_spec v 9223372036854775808);
    split; Z.div_mod_to_equations; lia.
Qed.

(** X12. [Uint64] stores a [uint64] below 2^63 as itself and one from
    2^63 on as the negative [int64] [v - 2^64]; converting the stored
    [Integer] back to [uint64] gives [v] again, and [Uint] builds the
    same field. *)
Theorem Uint64_lossless (key : string) (v : Z) :
  Zap.is_uint64 v ->
  Int64.in_range (Zap.Integer (Zap.Uint64 Uint64Type (Iface:=Iface) key v)) /\
  Zap.Integer (Zap.Uint64 Uint64Type (Iface:=Iface) key v)
    = (if v <? Int64.half_modulus then v else v - Int64.modulus) /\
  Zap.to_uint64 (Zap.Integer (Zap.Uint64 Uint64Type (Iface:=Iface) key v))
    = v /\
  Zap.Uint Uint64Type (Iface:=Iface) key v = Zap.Uint64 Uint64Type key v.
Proof.
  intros H. destruct (wrap_uint64 v H) as (HS & HB). cbn [Zap.Integer Zap.Uint64].
  split; [apply wrap_in_range|]. split; [exact HS|]. split; [exact HB|].
  unfold Zap.Uint, Zap.to_uint64. rewrite Z.mod_small; [reflexivity|exact H].
Qed.

(** X13. [Uint64] is injective on [uint64] values: fields built from
    different keys or different values differ, although values from 2^63
    on are stored as negative numbers. *)
Theorem Uint64_injective (k k' : string) (v v' : Z) :
  Zap.is_uint64 v -> Zap.is_uint64 v' ->
  Zap.Uint64 Uint64Type (Iface:=Iface) k v = Zap.Uint64 Uint64Type k' v' ->
  k = k' /\ v = v'.
Proof.
  intros H H' E. split.
  - exact (f_equal Zap.Key E).
  - destruct (wrap_uint64 v H) as (_ & <-).
    destruct (wrap_uint64 v' H') as (_ & <-).
    now rewrite (f_equal Zap.Integer E : Int64.wrap v = Int64.wrap v').
Qed.

End FieldFacts.

Lemma Uint64_lossless_witness :
  Int64.in_range
    (Zap.Integer (Zap.Uint64 tt (Iface:=unit) "n" 18446744073709551615)) /\
  Zap.Integer (Zap.Uint64 tt (Iface:=unit) "n" 18446744073709551615)
    = -1 /\
  Zap.to_uint64
    (Zap.Integer (Zap.Uint64 tt (Iface:=unit) "n" 18446744073709551615))
    = 18446744073709551615 /\
  Zap.Uint tt (Iface:=unit) "n" 18446744073709551615
    = Zap.Uint64 tt "n" 18446744073709551615.
Proof.
  apply (Uint64_lossless unit tt unit "n" 18446744073709551615).
  split; [discriminate | reflexivity].
Defined.

Lemma Uint64_injective_witness :
  "n"%string = "n"%string /\ 7 = 7.
Proof.
  apply (Uint64_injective unit tt unit "n" "n" 7 7);
    [split; [discriminate | reflexivity]
    |split; [discriminate | reflexivity]
    |reflexivity].
Defined.
